(** * KY-027 "Magic Light Cup" sketch for the LILYGO T-Display-S3

    A shallow embedding of [src/main.cpp]: the four functions of the sketch
    ([drawStaticElements], [updateDynamicElements], [setup], [loop]) written
    in a small state-and-output monad over the sketch's global variables,
    followed by the properties of the brightness ramp, of the two software
    timers and of the display output. *)

From Stdlib Require Import ZArith List Lia Bool String.
Import ListNotations.
Local Open Scope Z_scope.

(** ** Machine integers of the target (ESP32-S3: 32-bit [int], [long]) *)

Module Word.

Definition ulong_modulus : Z := 2 ^ 32.
Definition int_min : Z := - 2 ^ 31.
Definition int_max : Z := 2 ^ 31 - 1.

(** Value of an [unsigned long] expression: reduction modulo 2^32. *)
Definition to_ulong (x : Z) : Z := x mod ulong_modulus.

(** Value of an [int] expression: two's complement wrap-around. *)
Definition to_int (x : Z) : Z := (x + 2 ^ 31) mod 2 ^ 32 - 2 ^ 31.

Definition int_range (x : Z) : Prop := int_min <= x <= int_max.

End Word.
Import Word.

(** ** The part of the Arduino core and of TFT_eSPI the sketch talks to *)

(** Logic levels returned by [digitalRead] (Arduino core: LOW 0x0, HIGH 0x1). *)
Definition LOW : Z := 0.
Definition HIGH : Z := 1.

Inductive pin_mode : Type := INPUT | OUTPUT.
Inductive color : Type := TFT_BLACK | TFT_WHITE.

(** Every call that leaves the microcontroller, in program order. *)
Inductive event : Type :=
| PinMode (pin : Z) (mode : pin_mode)
| AnalogWrite (pin value : Z)
| TftInit
| TftSetRotation (r : Z)
| TftFillScreen (c : color)
| TftSetTextFont (f : Z)
| TftSetTextColor (fg bg : color)
| TftSetCursor (x y : Z)
| TftPrintln (s : string)
| TftPrint (s : string)
| TftPrintInt (n : Z).

(** What the hardware answers during one call of [setup] or [loop]: the
    millisecond counter and the level of every input pin. *)
Record env : Type := Env {
  millis : Z;
  digitalRead : Z -> Z
}.

(** ** Global variables of the sketch *)

Definition switchPinA : Z := 3.
Definition ledPinA : Z := 2.
Definition switchPinB : Z := 18.
Definition ledPinB : Z := 44.

Definition readInterval : Z := 5.
Definition updateInterval : Z := 100.
Definition brightnessSteps : Z := 2.

Record globals : Type := Globals {
  previousReadMillis : Z;
  previousUpdateMillis : Z;
  switchStateA : Z;
  switchStateB : Z;
  brightnessA : Z;
  brightnessB : Z;
  redrawRequired : bool
}.

(** The initialisers of the globals. *)
Definition boot : globals :=
  {| previousReadMillis := 0;
     previousUpdateMillis := 0;
     switchStateA := HIGH;
     switchStateB := HIGH;
     brightnessA := 0;
     brightnessB := 0;
     redrawRequired := true |}.

Definition set_previousReadMillis (v : Z) (g : globals) : globals :=
  Globals v (previousUpdateMillis g) (switchStateA g) (switchStateB g)
          (brightnessA g) (brightnessB g) (redrawRequired g).
Definition set_previousUpdateMillis (v : Z) (g : globals) : globals :=
  Globals (previousReadMillis g) v (switchStateA g) (switchStateB g)
          (brightnessA g) (brightnessB g) (redrawRequired g).
Definition set_switchStateA (v : Z) (g : globals) : globals :=
  Globals (previousReadMillis g) (previousUpdateMillis g) v (switchStateB g)
          (brightnessA g) (brightnessB g) (redrawRequired g).
Definition set_switchStateB (v : Z) (g : globals) : globals :=
  Globals (previousReadMillis g) (previousUpdateMillis g) (switchStateA g) v
          (brightnessA g) (brightnessB g) (redrawRequired g).
Definition set_brightnessA (v : Z) (g : globals) : globals :=
  Globals (previousReadMillis g) (previousUpdateMillis g) (switchStateA g)
          (switchStateB g) v (brightnessB g) (redrawRequired g).
Definition set_brightnessB (v : Z) (g : globals) : globals :=
  Globals (previousReadMillis g) (previousUpdateMillis g) (switchStateA g)
          (switchStateB g) (brightnessA g) v (redrawRequired g).
Definition set_redrawRequired (v : bool) (g : globals) : globals :=
  Globals (previousReadMillis g) (previousUpdateMillis g) (switchStateA g)
          (switchStateB g) (brightnessA g) (brightnessB g) v.

(** ** A monad for the sketch: global state in, result, state and output *)

Definition Sketch (A : Type) : Type := globals -> A * globals * list event.

Definition ret {A} (a : A) : Sketch A := fun g => (a, g, []).

Definition bind {A B} (c : Sketch A) (k : A -> Sketch B) : Sketch B :=
  fun g =>
    let '(a, g1, o1) := c g in
    let '(b, g2, o2) := k a g1 in
    (b, g2, o1 ++ o2).

Definition gets {A} (f : globals -> A) : Sketch A := fun g => (f g, g, []).
Definition modify (f : globals -> globals) : Sketch unit :=
  fun g => (tt, f g, []).
Definition emit (e : event) : Sketch unit := fun g => (tt, g, [e]).
Definition when (b : bool) (c : Sketch unit) : Sketch unit :=
  if b then c else ret tt.

Declare Scope sketch_scope.
Delimit Scope sketch_scope with sketch.
Notation "x <- c ;; k" := (bind c (fun x => k))
  (at level 61, c at next level, right associativity) : sketch_scope.
Notation "c ;; k" := (bind c (fun _ => k))
  (at level 61, right associativity) : sketch_scope.
Local Open Scope sketch_scope.

Definition state_of {A} (r : A * globals * list event) : globals := snd (fst r).
Definition output_of {A} (r : A * globals * list event) : list event := snd r.

(** ** Helper functions of the sketch *)

Definition header_rule : string := "---------------------------".
Definition header_title : string := " KY027 Magic Light Cups".
Definition label_A : string := "LED A Brightness:".
Definition label_B : string := "LED B Brightness:".
Definition blank_field : string := "      ".

Definition drawStaticElements : Sketch unit :=
  emit (TftFillScreen TFT_BLACK) ;;
  emit (TftSetTextFont 2) ;;
  emit (TftSetTextColor TFT_WHITE TFT_BLACK) ;;
  emit (TftSetCursor 0 0) ;;
  emit (TftPrintln header_rule) ;;
  emit (TftPrintln header_title) ;;
  emit (TftPrintln header_rule) ;;
  emit (TftSetCursor 0 70) ;;
  emit (TftPrint label_A) ;;
  emit (TftSetCursor 0 120) ;;
  emit (TftPrint label_B).

Definition updateDynamicElements : Sketch unit :=
  emit (TftSetCursor 0 90) ;;
  emit (TftPrint blank_field) ;;
  emit (TftSetCursor 0 90) ;;
  bA <- gets brightnessA ;;
  emit (TftPrintInt bA) ;;
  emit (TftSetCursor 0 140) ;;
  emit (TftPrint blank_field) ;;
  emit (TftSetCursor 0 140) ;;
  bB <- gets brightnessB ;;
  emit (TftPrintInt bB).

(** ** Main functions *)

Definition setup (e : env) : Sketch unit :=
  emit (PinMode switchPinA INPUT) ;;
  emit (PinMode ledPinA OUTPUT) ;;
  emit (PinMode switchPinB INPUT) ;;
  emit (PinMode ledPinB OUTPUT) ;;
  emit TftInit ;;
  emit (TftSetRotation 0) ;;
  emit (TftFillScreen TFT_BLACK) ;;
  emit (TftSetTextFont 2) ;;
  emit (TftSetTextColor TFT_WHITE TFT_BLACK) ;;
  drawStaticElements ;;
  modify (set_switchStateA (digitalRead e switchPinA)) ;;
  modify (set_switchStateB (digitalRead e switchPinB)) ;;
  sA <- gets switchStateA ;;
  when (sA =? LOW) (modify (set_brightnessA 255)) ;;
  sB <- gets switchStateB ;;
  when (sB =? LOW) (modify (set_brightnessB 255)) ;;
  bA <- gets brightnessA ;;
  emit (AnalogWrite ledPinA bA) ;;
  bB <- gets brightnessB ;;
  emit (AnalogWrite ledPinB bB) ;;
  modify (set_redrawRequired true).

(** The two guards of [loop]: unsigned 32-bit difference against the
    interval (the [long] interval is converted to [unsigned long]). *)
Definition read_due (currentMillis : Z) (g : globals) : bool :=
  to_ulong readInterval <=? to_ulong (currentMillis - previousReadMillis g).
Definition update_due (currentMillis : Z) (g : globals) : bool :=
  to_ulong updateInterval <=? to_ulong (currentMillis - previousUpdateMillis g).

(** Body of the first [if] of [loop]: sample both switches, move both
    ramps one step, drive both LEDs. *)
Definition sampleStage (e : env) (currentMillis : Z) : Sketch unit :=
  modify (set_previousReadMillis currentMillis) ;;
  modify (set_switchStateA (digitalRead e switchPinA)) ;;
  modify (set_switchStateB (digitalRead e switchPinB)) ;;
  sA <- gets switchStateA ;;
  (if sA =? LOW then
     bA <- gets brightnessA ;;
     when (bA <? 255)
       (modify (set_brightnessA (to_int (bA + brightnessSteps))) ;;
        bA' <- gets brightnessA ;;
        when (bA' >? 255) (modify (set_brightnessA 255)))
   else
     bA <- gets brightnessA ;;
     when (bA >? 0)
       (modify (set_brightnessA (to_int (bA - brightnessSteps))) ;;
        bA' <- gets brightnessA ;;
        when (bA' <? 0) (modify (set_brightnessA 0)))) ;;
  sB <- gets switchStateB ;;
  (if sB =? LOW then
     bB <- gets brightnessB ;;
     when (bB <? 255)
       (modify (set_brightnessB (to_int (bB + brightnessSteps))) ;;
        bB' <- gets brightnessB ;;
        when (bB' >? 255) (modify (set_brightnessB 255)))
   else
     bB <- gets brightnessB ;;
     when (bB >? 0)
       (modify (set_brightnessB (to_int (bB - brightnessSteps))) ;;
        bB' <- gets brightnessB ;;
        when (bB' <? 0) (modify (set_brightnessB 0)))) ;;
  bA <- gets brightnessA ;;
  emit (AnalogWrite ledPinA bA) ;;
  bB <- gets brightnessB ;;
  emit (AnalogWrite ledPinB bB).

(** Body of the second [if] of [loop]. *)
Definition renderStage (currentMillis : Z) : Sketch unit :=
  modify (set_previousUpdateMillis currentMillis) ;;
  updateDynamicElements.

Definition loop (e : env) : Sketch unit :=
  let currentMillis := to_ulong (millis e) in
  dueR <- gets (read_due currentMillis) ;;
  when dueR (sampleStage e currentMillis) ;;
  dueU <- gets (update_due currentMillis) ;;
  when dueU (renderStage currentMillis).

(** [loop] called once per element of [es], from globals [g]. *)
Fixpoint run (es : list env) (g : globals) : globals * list event :=
  match es with
  | [] => (g, [])
  | e :: es' =>
      let r := loop e g in
      let r' := run es' (state_of r) in
      (fst r', output_of r ++ snd r')
  end.

(** The firmware: globals initialised, [setup] once, then [loop] forever;
    observed after [length es] iterations. *)
Definition firmware (e0 : env) (es : list env) : globals * list event :=
  let r := setup e0 boot in
  let r' := run es (state_of r) in
  (fst r', output_of r ++ snd r').

(** ** Observers used by the statements *)

(** The two channels of the device; the sketch spells both out. *)
Inductive channel : Type := ChannelA | ChannelB.

Definition switchPin (c : channel) : Z :=
  match c with ChannelA => switchPinA | ChannelB => switchPinB end.
Definition brightness (c : channel) (g : globals) : Z :=
  match c with ChannelA => brightnessA g | ChannelB => brightnessB g end.

(** The two timed stages of [loop]. *)
Inductive stage : Type := SampleStage | RenderStage.

Definition interval (s : stage) : Z :=
  match s with SampleStage => readInterval | RenderStage => updateInterval end.
Definition timer (s : stage) (g : globals) : Z :=
  match s with
  | SampleStage => previousReadMillis g
  | RenderStage => previousUpdateMillis g
  end.

(** Which statement of a fade block decided the new brightness. *)
Inductive fade_path : Type :=
| StepUp | ClampTop | HoldTop | StepDown | ClampBottom | HoldBottom.

(** One fade block of [loop] read as a function of the sampled switch
    level and the old brightness, with the path taken through it. *)
Definition fade_traced (sw b : Z) : Z * fade_path :=
  if sw =? LOW then
    if b <? 255 then
      let b' := to_int (b + brightnessSteps) in
      if b' >? 255 then (255, ClampTop) else (b', StepUp)
    else (b, HoldTop)
  else
    if b >? 0 then
      let b' := to_int (b - brightnessSteps) in
      if b' <? 0 then (0, ClampBottom) else (b', StepDown)
    else (b, HoldBottom).

Definition fade (sw b : Z) : Z := fst (fade_traced sw b).

(** The ramp as the specification words it. *)
Definition ramp_reference (sw b : Z) : Z :=
  if sw =? LOW then Z.min 255 (b + brightnessSteps)
  else Z.max 0 (b - brightnessSteps).

(** Globals after the body of the sample stage. *)
Definition sampled (e : env) (currentMillis : Z) (g : globals) : globals :=
  {| previousReadMillis := currentMillis;
     previousUpdateMillis := previousUpdateMillis g;
     switchStateA := digitalRead e switchPinA;
     switchStateB := digitalRead e switchPinB;
     brightnessA := fade (digitalRead e switchPinA) (brightnessA g);
     brightnessB := fade (digitalRead e switchPinB) (brightnessB g);
     redrawRequired := redrawRequired g |}.

(** What one execution of the render stage sends to the display. *)
Definition render_output (g : globals) : list event :=
  [ TftSetCursor 0 90; TftPrint blank_field; TftSetCursor 0 90;
    TftPrintInt (brightnessA g);
    TftSetCursor 0 140; TftPrint blank_field; TftSetCursor 0 140;
    TftPrintInt (brightnessB g) ].

Definition static_text : list string :=
  [ header_rule; header_title; label_A; label_B ].

Definition draws_static (ev : event) : bool :=
  match ev with
  | TftPrintln s => existsb (String.eqb s) static_text
  | TftPrint s => existsb (String.eqb s) static_text
  | _ => false
  end.

Definition is_pwm_write (ev : event) : bool :=
  match ev with AnalogWrite _ _ => true | _ => false end.

Definition is_display (ev : event) : bool :=
  match ev with
  | PinMode _ _ | AnalogWrite _ _ => false
  | _ => true
  end.

(** Does stage [s] run in a call of [loop] with answer [e] from [g]?  The
    render guard is evaluated after the sample stage. *)
Definition fires (s : stage) (e : env) (g : globals) : bool :=
  let currentMillis := to_ulong (millis e) in
  match s with
  | SampleStage => read_due currentMillis g
  | RenderStage =>
      update_due currentMillis
        (state_of (when (read_due currentMillis g)
                        (sampleStage e currentMillis) g))
  end.

(** Globals before iteration [k] (counted from 0) of a run. *)
Definition state_before (es : list env) (g : globals) (k : nat) : globals :=
  fst (run (firstn k es) g).

Definition fires_at (s : stage) (es : list env) (g : globals) (k : nat) : bool :=
  match nth_error es k with
  | Some e => fires s e (state_before es g k)
  | None => false
  end.

(** Number of sample ticks of a run. *)
Fixpoint sample_ticks (es : list env) (g : globals) : nat :=
  match es with
  | [] => 0%nat
  | e :: es' =>
      ((if fires SampleStage e g then 1 else 0)
       + sample_ticks es' (state_of (loop e g)))%nat
  end.

Definition fade_path_eqb (p q : fade_path) : bool :=
  match p, q with
  | StepUp, StepUp | ClampTop, ClampTop | HoldTop, HoldTop
  | StepDown, StepDown | ClampBottom, ClampBottom
  | HoldBottom, HoldBottom => true
  | _, _ => false
  end.

(** Number of sample ticks of a run in which the fade block of channel [c]
    went through path [p]. *)
Fixpoint path_count (p : fade_path) (c : channel) (es : list env) (g : globals)
  : nat :=
  match es with
  | [] => 0%nat
  | e :: es' =>
      ((if fires SampleStage e g
           && fade_path_eqb p
                (snd (fade_traced (digitalRead e (switchPin c)) (brightness c g)))
        then 1 else 0)
       + path_count p c es' (state_of (loop e g)))%nat
  end.

(** Both brightness values are valid 8-bit duty cycles. *)
Definition in_pwm_range (g : globals) : Prop :=
  0 <= brightnessA g <= 255 /\ 0 <= brightnessB g <= 255.

(** ** Sample hardware answers *)

(** The clock at [t], switch A at level [a], switch B at level [b]. *)
Definition answer (t a b : Z) : env :=
  Env t (fun pin => if pin =? switchPinA then a
                    else if pin =? switchPinB then b else LOW).

(** [n] calls of [loop], 5 ms apart from 5 ms on, with constant levels. *)
Definition steady (n : nat) (a b : Z) : list env :=
  map (fun i => answer (5 * Z.of_nat i) a b) (seq 1 n).

(** ** Observers of the outputs and of whole runs *)

Definition ledPin (c : channel) : Z :=
  match c with ChannelA => ledPinA | ChannelB => ledPinB end.

(** A PWM write goes to one of the two LED pins with an 8-bit duty cycle;
    a printed number is an 8-bit value. *)
Definition value_in_range (ev : event) : bool :=
  match ev with
  | AnalogWrite pin v =>
      ((pin =? ledPinA) || (pin =? ledPinB)) && (0 <=? v) && (v <=? 255)
  | TftPrintInt n => (0 <=? n) && (n <=? 255)
  | _ => true
  end.

(** The calls [loop] can make: PWM writes to the LED pins, cursor moves to
    the two value fields, prints of the blank field and of numbers. *)
Definition loop_call (ev : event) : bool :=
  match ev with
  | AnalogWrite pin _ => (pin =? ledPinA) || (pin =? ledPinB)
  | TftSetCursor x y => (x =? 0) && ((y =? 90) || (y =? 140))
  | TftPrint s => String.eqb s blank_field
  | TftPrintInt _ => true
  | _ => false
  end.

(** Duty cycle last written to [pin] by the calls of [log], [before] when
    there is none. *)
Fixpoint last_pwm (pin : Z) (log : list event) (before : option Z) : option Z :=
  match log with
  | [] => before
  | AnalogWrite p v :: log' =>
      last_pwm pin log' (if p =? pin then Some v else before)
  | _ :: log' => last_pwm pin log' before
  end.

Definition writes_to (pin : Z) (ev : event) : bool :=
  match ev with AnalogWrite p _ => p =? pin | _ => false end.

(** Number of PWM writes to [pin] in [log]. *)
Definition pwm_writes (pin : Z) (log : list event) : nat :=
  List.length (filter (writes_to pin) log).

(** Number of calls of a run in which stage [s] runs. *)
Fixpoint stage_runs (s : stage) (es : list env) (g : globals) : nat :=
  match es with
  | [] => 0%nat
  | e :: es' =>
      ((if fires s e g then 1 else 0)
       + stage_runs s es' (state_of (loop e g)))%nat
  end.

(** The clock readings of [es] never go back, starting from [t]. *)
Fixpoint clock_advances (t : Z) (es : list env) : Prop :=
  match es with
  | [] => True
  | e :: es' => t <= millis e /\ clock_advances (millis e) es'
  end.

(** Two hardware answers that an observer of channel [c] cannot tell apart. *)
Definition same_for (c : channel) (e1 e2 : env) : Prop :=
  millis e1 = millis e2 /\
  digitalRead e1 (switchPin c) = digitalRead e2 (switchPin c).

(** ** Facts about machine integers *)

Lemma to_int_id (x : Z) : int_range x -> to_int x = x.
Proof.
  unfold int_range, int_min, int_max, to_int. intros Hx.
  rewrite Z.mod_small; lia.
Qed.

(** The unsigned difference of two wrapped readings is the wrapped
    difference of the readings. *)
Lemma to_ulong_sub (a b : Z) :
  to_ulong (to_ulong a - to_ulong b) = to_ulong (a - b).
Proof. unfold to_ulong. symmetry. apply Zminus_mod. Qed.

Lemma to_ulong_ge_nonneg (d k : Z) :
  0 <= d -> k <= to_ulong d -> k <= d.
Proof.
  unfold to_ulong, ulong_modulus. intros Hd Hk.
  assert (d mod 2 ^ 32 <= d) by (apply Z.mod_le; lia). lia.
Qed.

(** ** The monadic code computes the functional reading *)

Lemma fade_in_range (sw b : Z) :
  0 <= b <= 255 -> 0 <= fade sw b <= 255.
Proof.
  intros Hb. unfold fade, fade_traced, brightnessSteps.
  rewrite !to_int_id by (unfold int_range, int_min, int_max; lia).
  destruct (sw =? LOW);
    [ destruct (b <? 255) eqn:E1; [destruct (b + 2 >? 255) eqn:E2|]
    | destruct (b >? 0) eqn:E1; [destruct (b - 2 <? 0) eqn:E2|] ];
    cbn; lia.
Qed.

Lemma sampleStage_eq (e : env) (cm : Z) (g : globals) :
  sampleStage e cm g =
  (tt, sampled e cm g,
   [ AnalogWrite ledPinA (fade (digitalRead e switchPinA) (brightnessA g));
     AnalogWrite ledPinB (fade (digitalRead e switchPinB) (brightnessB g)) ]).
Proof.
  unfold sampleStage, sampled, fade, fade_traced.
  cbv [bind modify gets emit when ret set_previousReadMillis set_switchStateA
       set_switchStateB set_brightnessA set_brightnessB].
  cbn [previousReadMillis previousUpdateMillis switchStateA switchStateB
       brightnessA brightnessB redrawRequired].
  repeat match goal with
    | |- context [if ?c then _ else _] =>
        destruct c;
        cbn [fst snd app previousReadMillis previousUpdateMillis switchStateA
             switchStateB brightnessA brightnessB redrawRequired]
    end; reflexivity.
Qed.

Lemma renderStage_eq (cm : Z) (g : globals) :
  renderStage cm g = (tt, set_previousUpdateMillis cm g, render_output g).
Proof. reflexivity. Qed.

Lemma loop_eq (e : env) (g : globals) :
  loop e g =
  let cm := to_ulong (millis e) in
  let r1 := when (read_due cm g) (sampleStage e cm) g in
  let r2 := when (update_due cm (state_of r1)) (renderStage cm) (state_of r1) in
  (tt, state_of r2, output_of r1 ++ output_of r2).
Proof.
  unfold loop. cbv [bind gets]. cbn zeta.
  destruct (when (read_due (to_ulong (millis e)) g)
              (sampleStage e (to_ulong (millis e))) g) as [[[] g1] o1].
  cbn [state_of output_of fst snd app].
  destruct (when (update_due (to_ulong (millis e)) g1)
              (renderStage (to_ulong (millis e))) g1) as [[[] g2] o2].
  reflexivity.
Qed.

(** Both guards compare the same clock value with their own timer; the
    sample stage leaves the render timer alone. *)
Lemma fires_eq (s : stage) (e : env) (g : globals) :
  fires s e g =
  (to_ulong (interval s) <=? to_ulong (to_ulong (millis e) - timer s g)).
Proof.
  destruct s; unfold fires; [reflexivity|].
  destruct (read_due (to_ulong (millis e)) g); cbn [when].
  - rewrite sampleStage_eq. reflexivity.
  - reflexivity.
Qed.

Lemma loop_state (e : env) (g : globals) :
  state_of (loop e g) =
  let cm := to_ulong (millis e) in
  let g1 := if fires SampleStage e g then sampled e cm g else g in
  if fires RenderStage e g then set_previousUpdateMillis cm g1 else g1.
Proof.
  rewrite loop_eq. unfold fires. cbn zeta.
  destruct (read_due (to_ulong (millis e)) g); cbn [when].
  - rewrite sampleStage_eq. cbn [state_of fst snd].
    destruct (update_due (to_ulong (millis e)) _); reflexivity.
  - cbn [ret state_of fst snd].
    destruct (update_due (to_ulong (millis e)) g); reflexivity.
Qed.

Lemma loop_output (e : env) (g : globals) :
  output_of (loop e g) =
  (if fires SampleStage e g then
     [ AnalogWrite ledPinA (brightnessA (state_of (loop e g)));
       AnalogWrite ledPinB (brightnessB (state_of (loop e g))) ]
   else [])
  ++ (if fires RenderStage e g then render_output (state_of (loop e g)) else []).
Proof.
  rewrite loop_state. rewrite loop_eq. unfold fires. cbn zeta.
  destruct (read_due (to_ulong (millis e)) g); cbn [when].
  - rewrite sampleStage_eq. cbn [state_of output_of fst snd].
    destruct (update_due (to_ulong (millis e)) _); reflexivity.
  - cbn [ret state_of output_of fst snd].
    destruct (update_due (to_ulong (millis e)) g); reflexivity.
Qed.

Lemma loop_brightness (c : channel) (e : env) (g : globals) :
  brightness c (state_of (loop e g)) =
  if fires SampleStage e g
  then fade (digitalRead e (switchPin c)) (brightness c g)
  else brightness c g.
Proof.
  rewrite loop_state. cbn zeta.
  destruct c, (fires SampleStage e g), (fires RenderStage e g); reflexivity.
Qed.

Lemma loop_timer (s : stage) (e : env) (g : globals) :
  timer s (state_of (loop e g)) =
  if fires s e g then to_ulong (millis e) else timer s g.
Proof.
  rewrite loop_state. cbn zeta.
  destruct s, (fires SampleStage e g), (fires RenderStage e g); reflexivity.
Qed.

Lemma setup_eq (e : env) :
  setup e boot =
  (tt,
   {| previousReadMillis := 0;
      previousUpdateMillis := 0;
      switchStateA := digitalRead e switchPinA;
      switchStateB := digitalRead e switchPinB;
      brightnessA := if digitalRead e switchPinA =? LOW then 255 else 0;
      brightnessB := if digitalRead e switchPinB =? LOW then 255 else 0;
      redrawRequired := true |},
   [ PinMode switchPinA INPUT; PinMode ledPinA OUTPUT;
     PinMode switchPinB INPUT; PinMode ledPinB OUTPUT;
     TftInit; TftSetRotation 0; TftFillScreen TFT_BLACK; TftSetTextFont 2;
     TftSetTextColor TFT_WHITE TFT_BLACK;
     TftFillScreen TFT_BLACK; TftSetTextFont 2;
     TftSetTextColor TFT_WHITE TFT_BLACK; TftSetCursor 0 0;
     TftPrintln header_rule; TftPrintln header_title; TftPrintln header_rule;
     TftSetCursor 0 70; TftPrint label_A; TftSetCursor 0 120; TftPrint label_B;
     AnalogWrite ledPinA (if digitalRead e switchPinA =? LOW then 255 else 0);
     AnalogWrite ledPinB (if digitalRead e switchPinB =? LOW then 255 else 0) ]).
Proof.
  unfold setup, drawStaticElements, boot.
  cbv [bind modify gets emit when ret set_switchStateA set_switchStateB
       set_brightnessA set_brightnessB set_redrawRequired
       previousReadMillis previousUpdateMillis switchStateA switchStateB
       brightnessA brightnessB redrawRequired].
  destruct (digitalRead e switchPinA =? LOW);
    destruct (digitalRead e switchPinB =? LOW); reflexivity.
Qed.

(** ** Runs *)

Lemma run_cons (e : env) (es : list env) (g : globals) :
  fst (run (e :: es) g) = fst (run es (state_of (loop e g))).
Proof. reflexivity. Qed.

Lemma run_snoc (es : list env) (e : env) (g : globals) :
  fst (run (es ++ [e]) g) = state_of (loop e (fst (run es g))).
Proof.
  revert g. induction es as [|e' es IH]; intros g; [reflexivity|].
  cbn [app]. rewrite !run_cons. apply IH.
Qed.

Lemma firstn_succ_nth {A} (l : list A) (k : nat) (a : A) :
  nth_error l k = Some a -> firstn (S k) l = firstn k l ++ [a].
Proof.
  revert k. induction l as [|x l IH]; intros [|k] H; cbn in *;
    try discriminate.
  - congruence.
  - f_equal. apply IH, H.
Qed.

Lemma state_before_succ (es : list env) (g : globals) (k : nat) (e : env) :
  nth_error es k = Some e ->
  state_before es g (S k) = state_of (loop e (state_before es g k)).
Proof.
  intros H. unfold state_before.
  rewrite (firstn_succ_nth _ _ _ H). apply run_snoc.
Qed.

(** ** The brightness ramp *)

Lemma fade_reference (sw b : Z) :
  0 <= b <= 255 -> fade sw b = ramp_reference sw b.
Proof.
  intros Hb. unfold fade, fade_traced, ramp_reference, brightnessSteps.
  rewrite !to_int_id by (unfold int_range, int_min, int_max; lia).
  destruct (sw =? LOW);
    [ destruct (b <? 255) eqn:E1; [destruct (b + 2 >? 255) eqn:E2|]
    | destruct (b >? 0) eqn:E1; [destruct (b - 2 <? 0) eqn:E2|] ];
    cbn; lia.
Qed.

Lemma loop_in_pwm_range (e : env) (g : globals) :
  in_pwm_range g -> in_pwm_range (state_of (loop e g)).
Proof.
  intros [HA HB]. unfold in_pwm_range.
  rewrite (loop_brightness ChannelA e g : brightnessA _ = _).
  rewrite (loop_brightness ChannelB e g : brightnessB _ = _).
  cbn [brightness switchPin].
  destruct (fires SampleStage e g); auto using fade_in_range.
Qed.

Lemma run_in_pwm_range (es : list env) (g : globals) :
  in_pwm_range g -> in_pwm_range (fst (run es g)).
Proof.
  revert g. induction es as [|e es IH]; intros g Hg; [exact Hg|].
  rewrite run_cons. apply IH, loop_in_pwm_range, Hg.
Qed.

Lemma setup_in_pwm_range (e0 : env) :
  in_pwm_range (state_of (setup e0 boot)).
Proof.
  rewrite setup_eq. unfold in_pwm_range. cbn [state_of fst snd brightnessA brightnessB].
  destruct (digitalRead e0 switchPinA =? LOW);
    destruct (digitalRead e0 switchPinB =? LOW); lia.
Qed.

Lemma firmware_in_pwm_range (e0 : env) (es : list env) :
  in_pwm_range (fst (firmware e0 es)).
Proof.
  unfold firmware. cbn [fst]. apply run_in_pwm_range, setup_in_pwm_range.
Qed.

(** C1: whatever the switches and the clock answer, and however many times
    [loop] has run (any prefix of any run, hence after every sample tick),
    both brightness values lie in [0,255], starting from the values [setup]
    seeds. *)
Theorem brightness_within_bounds (e0 : env) (es : list env) (k : nat) :
  let g := fst (firmware e0 (firstn k es)) in
  (0 <= brightnessA g <= 255) /\ (0 <= brightnessB g <= 255).
Proof. apply firmware_in_pwm_range. Qed.

(** C2: in every state the firmware can reach, a call of [loop] moves each
    channel's brightness by the reference ramp (min(255, b + 2) when the
    sampled level is LOW, max(0, b - 2) otherwise) applied exactly once when
    the sample stage runs, and not at all when it does not. *)
Theorem ramp_equals_reference (e0 : env) (es : list env) (e : env) (c : channel) :
  let g := fst (firmware e0 es) in
  brightness c (state_of (loop e g)) =
  if fires SampleStage e g
  then ramp_reference (digitalRead e (switchPin c)) (brightness c g)
  else brightness c g.
Proof.
  cbn zeta. rewrite loop_brightness.
  destruct (fires SampleStage e (fst (firmware e0 es))); [|reflexivity].
  apply fade_reference.
  destruct (firmware_in_pwm_range e0 es) as [HA HB]. destruct c; assumption.
Qed.

Lemma fade_step (sw b : Z) :
  int_range b ->
  Z.abs (fade sw b - b) <= 2 /\
  (sw = LOW -> b <= fade sw b) /\
  (sw <> LOW -> fade sw b <= b).
Proof.
  unfold int_range, int_min, int_max. intros Hb.
  unfold fade, fade_traced, brightnessSteps.
  destruct (Z.eqb_spec sw LOW) as [Hsw|Hsw].
  - destruct (b <? 255) eqn:E1.
    + rewrite to_int_id by (unfold int_range, int_min, int_max; lia).
      destruct (b + 2 >? 255) eqn:E2; cbn [fst]; lia.
    + cbn [fst]. lia.
  - destruct (b >? 0) eqn:E1.
    + rewrite to_int_id by (unfold int_range, int_min, int_max; lia).
      destruct (b - 2 <? 0) eqn:E2; cbn [fst]; lia.
    + cbn [fst]. lia.
Qed.

(** C9: a call of [loop] changes each channel's brightness by at most 2, never
    downwards when the sampled switch level is LOW and never upwards when it
    is not (iterations without a sample tick leave it as it is). *)
Theorem ramp_step_bounded_and_directed (c : channel) (e : env) (g : globals) :
  int_range (brightness c g) ->
  let b := brightness c g in
  let b' := brightness c (state_of (loop e g)) in
  Z.abs (b' - b) <= 2 /\
  (digitalRead e (switchPin c) = LOW -> b <= b') /\
  (digitalRead e (switchPin c) <> LOW -> b' <= b).
Proof.
  intros Hb. cbn zeta. rewrite loop_brightness.
  destruct (fires SampleStage e g).
  - apply fade_step, Hb.
  - rewrite Z.sub_diag. cbn. lia.
Qed.

Lemma ramp_step_bounded_and_directed_witness :
  int_range (brightness ChannelA boot) /\
  Z.abs (brightness ChannelA (state_of (loop (Env 5 (fun _ => LOW)) boot))
         - brightness ChannelA boot) <= 2.
Proof.
  assert (H : int_range (brightness ChannelA boot))
    by (unfold int_range, int_min, int_max; cbn; lia).
  split; [exact H|].
  exact (proj1 (ramp_step_bounded_and_directed ChannelA (Env 5 (fun _ => LOW)) boot H)).
Defined.

(** ** Startup *)

(** C5: [setup], run on the freshly initialised globals, leaves each
    channel's brightness at 255 when its switch reads LOW and at 0 otherwise,
    and its last two outputs, the first PWM writes of the firmware, carry
    these two values; everything the [loop] iterations output comes after
    them. *)
Theorem setup_seeds_and_writes (e0 : env) (es : list env) :
  let g0 := state_of (setup e0 boot) in
  (forall c : channel,
      brightness c g0 = if digitalRead e0 (switchPin c) =? LOW then 255 else 0) /\
  exists pre : list event,
    filter is_pwm_write pre = [] /\
    snd (firmware e0 es) =
    pre ++ [AnalogWrite ledPinA (brightnessA g0);
            AnalogWrite ledPinB (brightnessB g0)]
        ++ snd (run es g0).
Proof.
  cbn zeta. unfold firmware. cbn [snd]. rewrite setup_eq.
  cbn [state_of output_of fst snd]. split.
  - intros []; reflexivity.
  - exists
      [ PinMode switchPinA INPUT; PinMode ledPinA OUTPUT;
        PinMode switchPinB INPUT; PinMode ledPinB OUTPUT;
        TftInit; TftSetRotation 0; TftFillScreen TFT_BLACK; TftSetTextFont 2;
        TftSetTextColor TFT_WHITE TFT_BLACK;
        TftFillScreen TFT_BLACK; TftSetTextFont 2;
        TftSetTextColor TFT_WHITE TFT_BLACK; TftSetCursor 0 0;
        TftPrintln header_rule; TftPrintln header_title;
        TftPrintln header_rule;
        TftSetCursor 0 70; TftPrint label_A;
        TftSetCursor 0 120; TftPrint label_B ].
    split; reflexivity.
Qed.

(** ** Holding the switch: closed forms of the ramp *)

Lemma fade_traced_up (m : Z) :
  0 <= m ->
  fade_traced LOW (Z.min 255 (2 * m)) =
  if m <? 127 then (2 * m + 2, StepUp)
  else if m =? 127 then (255, ClampTop) else (255, HoldTop).
Proof.
  intros Hm. unfold fade_traced, brightnessSteps. cbn [Z.eqb LOW].
  destruct (Z.ltb_spec m 127) as [H1|H1].
  - rewrite Z.min_r by lia.
    destruct (Z.ltb_spec (2 * m) 255); [|lia].
    rewrite to_int_id by (unfold int_range, int_min, int_max; lia).
    destruct (Z.gtb_spec (2 * m + 2) 255); [lia|reflexivity].
  - destruct (Z.eqb_spec m 127) as [H2|H2].
    + subst m. reflexivity.
    + rewrite Z.min_l by lia. reflexivity.
Qed.

Lemma fade_traced_down (sw m : Z) :
  sw <> LOW -> 0 <= m ->
  fade_traced sw (Z.max 0 (255 - 2 * m)) =
  if m <? 127 then (253 - 2 * m, StepDown)
  else if m =? 127 then (0, ClampBottom) else (0, HoldBottom).
Proof.
  intros Hsw Hm. unfold fade_traced, brightnessSteps.
  destruct (Z.eqb_spec sw LOW) as [|_]; [contradiction|].
  destruct (Z.ltb_spec m 127) as [H1|H1].
  - rewrite Z.max_r by lia.
    destruct (Z.gtb_spec (255 - 2 * m) 0); [|lia].
    rewrite to_int_id by (unfold int_range, int_min, int_max; lia).
    destruct (Z.ltb_spec (255 - 2 * m - 2) 0); [lia|].
    f_equal. lia.
  - destruct (Z.eqb_spec m 127) as [H2|H2].
    + subst m. reflexivity.
    + rewrite Z.max_l by lia. reflexivity.
Qed.

(** [ClampTop] is the path through the assignment [brightness = 255]: the
    switch reads LOW, the old value is below 255 and the sum exceeds 255. *)
Lemma clamp_top_guards (sw b : Z) :
  snd (fade_traced sw b) = ClampTop <->
  sw = LOW /\ b < 255 /\ to_int (b + brightnessSteps) > 255.
Proof.
  unfold fade_traced.
  destruct (Z.eqb_spec sw LOW) as [Hsw|Hsw].
  - destruct (Z.ltb_spec b 255).
    + destruct (Z.gtb_spec (to_int (b + brightnessSteps)) 255); cbn [snd];
        split; try discriminate; try (intros; repeat split; lia); lia.
    + cbn [snd]. split; [discriminate|lia].
  - destruct (b >? 0); [destruct (_ <? 0)|]; cbn [snd];
      (split; [discriminate|intros [? _]; contradiction]).
Qed.

Lemma held_low_from (c : channel) (es : list env) :
  forall (g : globals) (m : Z),
    0 <= m ->
    brightness c g = Z.min 255 (2 * m) ->
    (forall e, In e es -> digitalRead e (switchPin c) = LOW) ->
    brightness c (fst (run es g))
    = Z.min 255 (2 * (m + Z.of_nat (sample_ticks es g))) /\
    path_count ClampTop c es g
    = if (m <? 128) && (128 <=? m + Z.of_nat (sample_ticks es g))
      then 1%nat else 0%nat.
Proof.
  induction es as [|e es IH]; intros g m Hm Hb Hlow.
  - cbn [run fst sample_ticks path_count Z.of_nat]. rewrite Z.add_0_r.
    split; [exact Hb|].
    destruct (Z.ltb_spec m 128), (Z.leb_spec 128 m); try reflexivity; lia.
  - rewrite run_cons. cbn [sample_ticks path_count].
    assert (He : digitalRead e (switchPin c) = LOW) by (apply Hlow; left; reflexivity).
    assert (Hes : forall e', In e' es -> digitalRead e' (switchPin c) = LOW)
      by (intros e' Hin; apply Hlow; right; exact Hin).
    pose proof (loop_brightness c e g) as Hstep.
    rewrite He, Hb in Hstep. unfold fade in Hstep.
    rewrite He, Hb, (fade_traced_up m Hm). rewrite (fade_traced_up m Hm) in Hstep.
    destruct (fires SampleStage e g); cbn [andb].
    + assert (Hb' : brightness c (state_of (loop e g)) = Z.min 255 (2 * (m + 1))).
      { rewrite Hstep.
        destruct (Z.ltb_spec m 127); [cbn [fst]; lia|].
        destruct (Z.eqb_spec m 127); cbn [fst]; lia. }
      destruct (IH (state_of (loop e g)) (m + 1) ltac:(lia) Hb' Hes) as [IHb IHp].
      rewrite IHb, IHp. split; [f_equal; lia|].
      replace (m + 1 + Z.of_nat (sample_ticks es (state_of (loop e g))))
        with (m + Z.of_nat (1 + sample_ticks es (state_of (loop e g)))) by lia.
      destruct (Z.leb_spec 128 (m + Z.of_nat (1 + sample_ticks es (state_of (loop e g))))).
      * destruct (Z.ltb_spec m 127).
        { cbn [snd fade_path_eqb].
          destruct (Z.ltb_spec (m + 1) 128), (Z.ltb_spec m 128); try lia; reflexivity. }
        destruct (Z.eqb_spec m 127).
        { cbn [snd fade_path_eqb].
          destruct (Z.ltb_spec (m + 1) 128), (Z.ltb_spec m 128); try lia; reflexivity. }
        cbn [snd fade_path_eqb].
        destruct (Z.ltb_spec (m + 1) 128), (Z.ltb_spec m 128); try lia; reflexivity.
      * rewrite !andb_false_r.
        destruct (Z.ltb_spec m 127); [reflexivity|].
        destruct (Z.eqb_spec m 127); [lia|reflexivity].
    + destruct (IH (state_of (loop e g)) m Hm Hstep Hes) as [IHb IHp].
      rewrite IHb, IHp. split; reflexivity.
Qed.

Lemma held_high_from (c : channel) (es : list env) :
  forall (g : globals) (m : Z),
    0 <= m ->
    brightness c g = Z.max 0 (255 - 2 * m) ->
    (forall e, In e es -> digitalRead e (switchPin c) <> LOW) ->
    brightness c (fst (run es g))
    = Z.max 0 (255 - 2 * (m + Z.of_nat (sample_ticks es g))).
Proof.
  induction es as [|e es IH]; intros g m Hm Hb Hhigh.
  - cbn [run fst sample_ticks Z.of_nat]. rewrite Z.add_0_r. exact Hb.
  - rewrite run_cons. cbn [sample_ticks].
    assert (He : digitalRead e (switchPin c) <> LOW) by (apply Hhigh; left; reflexivity).
    assert (Hes : forall e', In e' es -> digitalRead e' (switchPin c) <> LOW)
      by (intros e' Hin; apply Hhigh; right; exact Hin).
    pose proof (loop_brightness c e g) as Hstep.
    rewrite Hb in Hstep. unfold fade in Hstep.
    rewrite (fade_traced_down _ m He Hm) in Hstep.
    destruct (fires SampleStage e g).
    + assert (Hb' : brightness c (state_of (loop e g)) = Z.max 0 (255 - 2 * (m + 1))).
      { rewrite Hstep.
        destruct (Z.ltb_spec m 127); [cbn [fst]; lia|].
        destruct (Z.eqb_spec m 127); cbn [fst]; lia. }
      rewrite (IH (state_of (loop e g)) (m + 1) ltac:(lia) Hb' Hes).
      f_equal. lia.
    + rewrite (IH (state_of (loop e g)) m Hm Hstep Hes). reflexivity.
Qed.

Lemma steady_levels (n : nat) (a b : Z) (e : env) :
  In e (steady n a b) ->
  digitalRead e switchPinA = a /\ digitalRead e switchPinB = b.
Proof.
  unfold steady. intros Hin. apply in_map_iff in Hin.
  destruct Hin as [i [<- _]]. split; reflexivity.
Qed.

(** C3: a channel at brightness 0 whose switch reads LOW at every call of
    [loop] has brightness 2n after n sample ticks for n up to 127 (2, 4, ...,
    254) and 255 from the 128th tick on; it is 255 exactly when at least 128
    ticks have passed, and of all the ticks of the run exactly one, the
    128th, goes through the clamping assignment. *)
Theorem held_tilted_reaches_full (c : channel) (g : globals) (es : list env) :
  brightness c g = 0 ->
  (forall e, In e es -> digitalRead e (switchPin c) = LOW) ->
  let n := Z.of_nat (sample_ticks es g) in
  let b := brightness c (fst (run es g)) in
  (n <= 127 -> b = 2 * n) /\
  (128 <= n -> b = 255) /\
  (b = 255 <-> 128 <= n) /\
  path_count ClampTop c es g = (if 128 <=? n then 1%nat else 0%nat).
Proof.
  intros Hb Hlow. cbn zeta.
  destruct (held_low_from c es g 0 ltac:(lia) Hb Hlow) as [Hval Hclamp].
  rewrite Z.add_0_l in Hval, Hclamp. cbn [Z.ltb Z.compare andb] in Hclamp.
  rewrite Hval. split; [lia|]. split; [lia|]. split; [lia|]. exact Hclamp.
Qed.

Lemma held_tilted_reaches_full_witness :
  brightness ChannelA boot = 0 /\
  (forall e, In e (steady 130 LOW HIGH) -> digitalRead e (switchPin ChannelA) = LOW) /\
  brightness ChannelA (fst (run (steady 130 LOW HIGH) boot)) = 255 /\
  path_count ClampTop ChannelA (steady 130 LOW HIGH) boot = 1%nat.
Proof.
  assert (H1 : brightness ChannelA boot = 0) by reflexivity.
  assert (H2 : forall e, In e (steady 130 LOW HIGH) ->
                         digitalRead e (switchPin ChannelA) = LOW)
    by (intros e He; exact (proj1 (steady_levels _ _ _ _ He))).
  split; [exact H1|]. split; [exact H2|].
  destruct (held_tilted_reaches_full ChannelA boot (steady 130 LOW HIGH) H1 H2)
    as (_ & Hfull & _ & Hclamp).
  split.
  - apply Hfull. apply Z.leb_le. vm_compute. reflexivity.
  - rewrite Hclamp. vm_compute. reflexivity.
Defined.

(** C4: a channel at brightness 255 whose switch reads released (not LOW) at
    every call of [loop] has brightness max(0, 255 - 2n) after n sample
    ticks: still positive after 127 ticks, 0 after 128 ticks and after any
    larger number of them. *)
Theorem held_released_reaches_zero (c : channel) (g : globals) (es : list env) :
  brightness c g = 255 ->
  (forall e, In e es -> digitalRead e (switchPin c) <> LOW) ->
  let n := Z.of_nat (sample_ticks es g) in
  let b := brightness c (fst (run es g)) in
  b = Z.max 0 (255 - 2 * n) /\
  (128 <= n -> b = 0) /\
  (n <= 127 -> 0 < b).
Proof.
  intros Hb Hhigh. cbn zeta.
  rewrite (held_high_from c es g 0 ltac:(lia) Hb Hhigh).
  rewrite Z.add_0_l. repeat split; lia.
Qed.

Lemma held_released_reaches_zero_witness :
  let g := state_of (setup (answer 0 LOW LOW) boot) in
  brightness ChannelB g = 255 /\
  (forall e, In e (steady 130 HIGH HIGH) -> digitalRead e (switchPin ChannelB) <> LOW) /\
  brightness ChannelB (fst (run (steady 130 HIGH HIGH) g)) = 0.
Proof.
  cbn zeta.
  assert (H1 : brightness ChannelB (state_of (setup (answer 0 LOW LOW) boot)) = 255)
    by reflexivity.
  assert (H2 : forall e, In e (steady 130 HIGH HIGH) ->
                         digitalRead e (switchPin ChannelB) <> LOW).
  { intros e He. cbn [switchPin].
    rewrite (proj2 (steady_levels _ _ _ _ He)). discriminate. }
  split; [exact H1|]. split; [exact H2|].
  destruct (held_released_reaches_zero ChannelB _ (steady 130 HIGH HIGH) H1 H2)
    as (_ & Hzero & _).
  apply Hzero. apply Z.leb_le. vm_compute. reflexivity.
Defined.

(** ** The two timers *)

Lemma to_ulong_interval (s : stage) : to_ulong (interval s) = interval s.
Proof. destruct s; reflexivity. Qed.

Lemma fires_at_spec (s : stage) (es : list env) (g : globals) (k : nat) (e : env) :
  nth_error es k = Some e ->
  fires_at s es g k = fires s e (state_before es g k).
Proof. intros H. unfold fires_at. rewrite H. reflexivity. Qed.

(** After stage [s] ran in iteration [i], its timer holds that iteration's
    clock value until the stage runs again. *)
Lemma timer_holds_last_run (s : stage) (es : list env) (g : globals)
      (i : nat) (ei : env) :
  nth_error es i = Some ei ->
  fires_at s es g i = true ->
  forall d : nat,
    (i + d < List.length es)%nat ->
    (forall k, (i < k < S (i + d))%nat -> fires_at s es g k = false) ->
    timer s (state_before es g (S (i + d))) = to_ulong (millis ei).
Proof.
  intros Hi Hfi. induction d as [|d IH]; intros Hlen Hquiet.
  - rewrite Nat.add_0_r.
    rewrite (state_before_succ es g i ei Hi), loop_timer.
    rewrite <- (fires_at_spec s es g i ei Hi), Hfi. reflexivity.
  - destruct (nth_error es (i + S d)) as [ek|] eqn:Hk.
    + rewrite (state_before_succ es g (i + S d) ek Hk), loop_timer.
      rewrite <- (fires_at_spec s es g (i + S d) ek Hk).
      rewrite (Hquiet (i + S d)%nat) by lia.
      replace (i + S d)%nat with (S (i + d)) by lia.
      apply IH; [lia|]. intros k Hk'. apply Hquiet. lia.
    + apply nth_error_None in Hk. lia.
Qed.

(** C6: take any sequence of clock readings and any two calls of [loop] in
    which the same stage runs, with no run of that stage in between.  The
    32-bit clock has then advanced by at least the stage's interval (5 for
    the sample stage, 100 for the render stage); when the later reading is not
    smaller than the earlier one, their plain difference is at least the
    interval.  No hypothesis bounds how close in time the calls are. *)
Theorem stage_runs_are_spaced (s : stage) (g : globals) (es : list env)
        (i j : nat) (ei ej : env) :
  (i < j)%nat ->
  nth_error es i = Some ei ->
  nth_error es j = Some ej ->
  fires_at s es g i = true ->
  fires_at s es g j = true ->
  (forall k, (i < k < j)%nat -> fires_at s es g k = false) ->
  interval s <= to_ulong (millis ej - millis ei) /\
  (millis ei <= millis ej -> interval s <= millis ej - millis ei).
Proof.
  intros Hij Hi Hj Hfi Hfj Hquiet.
  assert (Hlen : (j < List.length es)%nat)
    by (apply nth_error_Some; rewrite Hj; discriminate).
  assert (Htimer : timer s (state_before es g j) = to_ulong (millis ei)).
  { replace j with (S (i + (j - S i))) by lia.
    apply (timer_holds_last_run s es g i ei Hi Hfi); [lia|].
    intros k Hk. apply Hquiet. lia. }
  rewrite (fires_at_spec s es g j ej Hj), fires_eq in Hfj.
  rewrite Htimer, to_ulong_sub, to_ulong_interval in Hfj.
  apply Z.leb_le in Hfj. split; [exact Hfj|].
  intros Hmono. apply to_ulong_ge_nonneg; [lia|exact Hfj].
Qed.

Lemma stage_runs_are_spaced_witness :
  let es := [answer 5 LOW HIGH; answer 7 LOW HIGH; answer 10 LOW HIGH] in
  (0 < 2)%nat /\
  fires_at SampleStage es boot 0 = true /\
  fires_at SampleStage es boot 2 = true /\
  (forall k, (0 < k < 2)%nat -> fires_at SampleStage es boot k = false) /\
  interval SampleStage <= to_ulong (10 - 5).
Proof.
  cbn zeta.
  assert (Hq : forall k, (0 < k < 2)%nat ->
                 fires_at SampleStage
                   [answer 5 LOW HIGH; answer 7 LOW HIGH; answer 10 LOW HIGH]
                   boot k = false).
  { intros k Hk. assert (k = 1%nat) as -> by lia. reflexivity. }
  split; [lia|]. split; [reflexivity|]. split; [reflexivity|]. split; [exact Hq|].
  exact (proj1 (stage_runs_are_spaced SampleStage boot
                  [answer 5 LOW HIGH; answer 7 LOW HIGH; answer 10 LOW HIGH]
                  0 2 (answer 5 LOW HIGH) (answer 10 LOW HIGH)
                  ltac:(lia) eq_refl eq_refl eq_refl eq_refl Hq)).
Defined.

(** C7: a call of [loop] is the sample stage under its guard followed by
    the render stage under its guard, the second working on the globals the first
    leaves and its output coming after the first's; each guard compares the
    one clock value of the call with the stage's own timer as it was when the
    call began; and each of the four outcomes (both stages run, only the
    sample stage, only the render stage, neither) occurs in some state the
    firmware reaches. *)
Theorem loop_stages_in_order :
  (forall (e : env) (g : globals),
      let cm := to_ulong (millis e) in
      let r1 := when (read_due cm g) (sampleStage e cm) g in
      let r2 := when (update_due cm (state_of r1)) (renderStage cm) (state_of r1) in
      loop e g = (tt, state_of r2, output_of r1 ++ output_of r2) /\
      read_due cm g = fires SampleStage e g /\
      update_due cm (state_of r1) = fires RenderStage e g) /\
  (forall (s : stage) (e : env) (g : globals),
      fires s e g = (interval s <=? to_ulong (to_ulong (millis e) - timer s g))) /\
  (forall runs_sample runs_render : bool,
      exists (e0 : env) (es : list env) (e : env),
        fires SampleStage e (fst (firmware e0 es)) = runs_sample /\
        fires RenderStage e (fst (firmware e0 es)) = runs_render).
Proof.
  split; [|split].
  - intros e g. cbn zeta. split; [apply loop_eq|]. split; reflexivity.
  - intros s e g. rewrite fires_eq, to_ulong_interval. reflexivity.
  - intros [] [].
    + exists (answer 0 HIGH HIGH), [], (answer 100 HIGH HIGH).
      split; reflexivity.
    + exists (answer 0 HIGH HIGH), [], (answer 5 HIGH HIGH).
      split; reflexivity.
    + exists (answer 0 HIGH HIGH), [answer 98 HIGH HIGH], (answer 100 HIGH HIGH).
      split; reflexivity.
    + exists (answer 0 HIGH HIGH), [], (answer 0 HIGH HIGH).
      split; reflexivity.
Qed.

(** ** The display *)

Lemma loop_output_no_static (e : env) (g : globals) :
  filter draws_static (output_of (loop e g)) = [].
Proof.
  rewrite loop_output.
  destruct (fires SampleStage e g), (fires RenderStage e g); reflexivity.
Qed.

Lemma run_output_no_static (es : list env) (g : globals) :
  filter draws_static (snd (run es g)) = [].
Proof.
  revert g. induction es as [|e es IH]; intros g; [reflexivity|].
  cbn [run snd]. rewrite filter_app, loop_output_no_static, IH. reflexivity.
Qed.

(** C8: every execution of the render stage outputs, for each of the two
    numeric fields and in this order: cursor to the field, six blanks,
    cursor to the field again, the brightness value; a call of [loop] in
    which the render stage runs ends with exactly this output.  The header
    and the labels are printed once by [setup]: keeping only the prints of
    header or label text from the whole output of the firmware leaves one
    copy of the header and of each label, and no call of [loop] adds any. *)
Theorem display_drawing_discipline :
  (forall (cm : Z) (g : globals),
      output_of (renderStage cm g) =
      [ TftSetCursor 0 90; TftPrint blank_field; TftSetCursor 0 90;
        TftPrintInt (brightnessA g);
        TftSetCursor 0 140; TftPrint blank_field; TftSetCursor 0 140;
        TftPrintInt (brightnessB g) ]) /\
  (blank_field = String.concat "" (repeat " "%string 6)) /\
  (forall (e : env) (g : globals),
      output_of (loop e g) =
      (if fires SampleStage e g then
         [ AnalogWrite ledPinA (brightnessA (state_of (loop e g)));
           AnalogWrite ledPinB (brightnessB (state_of (loop e g))) ]
       else [])
      ++ (if fires RenderStage e g
          then output_of (renderStage (to_ulong (millis e)) (state_of (loop e g)))
          else [])) /\
  (forall (e0 : env) (es : list env),
      filter draws_static (snd (firmware e0 es)) =
      [ TftPrintln header_rule; TftPrintln header_title; TftPrintln header_rule;
        TftPrint label_A; TftPrint label_B ]) /\
  (forall (es : list env) (g : globals),
      filter draws_static (snd (run es g)) = []).
Proof.
  split; [reflexivity|]. split; [reflexivity|]. split; [|split].
  - intros e g. rewrite renderStage_eq. apply loop_output.
  - intros e0 es. unfold firmware. cbn [snd].
    rewrite filter_app, run_output_no_static, setup_eq, app_nil_r. reflexivity.
  - apply run_output_no_static.
Qed.

(** C10: the render stage changes the render timer and nothing else in the
    globals (both brightness values, both switch states and the sample timer
    stay as they were), and all of its output goes to the display. *)
Theorem render_stage_frame (cm : Z) (g : globals) :
  let g' := state_of (renderStage cm g) in
  brightnessA g' = brightnessA g /\
  brightnessB g' = brightnessB g /\
  switchStateA g' = switchStateA g /\
  switchStateB g' = switchStateB g /\
  previousReadMillis g' = previousReadMillis g /\
  redrawRequired g' = redrawRequired g /\
  previousUpdateMillis g' = cm /\
  forallb is_display (output_of (renderStage cm g)) = true.
Proof. cbn zeta. rewrite renderStage_eq. repeat split. Qed.

(** ** What reaches the hardware *)

Lemma run_output_cons (e : env) (es : list env) (g : globals) :
  snd (run (e :: es) g)
  = output_of (loop e g) ++ snd (run es (state_of (loop e g))).
Proof. reflexivity. Qed.

Lemma loop_output_in_range (e : env) (g : globals) :
  in_pwm_range g -> forallb value_in_range (output_of (loop e g)) = true.
Proof.
  intros Hg. apply (loop_in_pwm_range e) in Hg.
  destruct Hg as [[HA0 HA1] [HB0 HB1]].
  apply Z.leb_le in HA0, HA1, HB0, HB1.
  rewrite loop_output.
  destruct (fires SampleStage e g), (fires RenderStage e g);
    cbn [app forallb value_in_range render_output];
    rewrite ?HA0, ?HA1, ?HB0, ?HB1; reflexivity.
Qed.

Lemma run_output_in_range (es : list env) (g : globals) :
  in_pwm_range g -> forallb value_in_range (snd (run es g)) = true.
Proof.
  revert g. induction es as [|e es IH]; intros g Hg; [reflexivity|].
  rewrite run_output_cons, forallb_app, (loop_output_in_range e g Hg).
  apply IH, loop_in_pwm_range, Hg.
Qed.

(** X1: every PWM write the firmware ever makes goes to one of the two LED
    pins with a duty cycle in [0,255], and every number it prints on the
    display is in [0,255]. *)
Theorem outputs_are_eight_bit (e0 : env) (es : list env) :
  forallb value_in_range (snd (firmware e0 es)) = true.
Proof.
  unfold firmware. cbn [snd]. rewrite forallb_app.
  rewrite (run_output_in_range es _ (setup_in_pwm_range e0)), andb_true_r.
  rewrite setup_eq.
  cbn [output_of snd].
  destruct (digitalRead e0 switchPinA =? LOW);
    destruct (digitalRead e0 switchPinB =? LOW); reflexivity.
Qed.

Lemma loop_output_calls (e : env) (g : globals) :
  forallb loop_call (output_of (loop e g)) = true.
Proof.
  rewrite loop_output.
  destruct (fires SampleStage e g), (fires RenderStage e g); reflexivity.
Qed.

(** X2: from any globals, the calls of [loop] only write PWM to the LED pins,
    move the cursor to one of the two value fields, print the blank field
    and print numbers: [loop] never configures a pin, never initialises or
    clears the display and never changes font or colours. *)
Theorem loop_only_drives_leds_and_fields (es : list env) (g : globals) :
  forallb loop_call (snd (run es g)) = true.
Proof.
  revert g. induction es as [|e es IH]; intros g; [reflexivity|].
  rewrite run_output_cons, forallb_app, loop_output_calls. apply IH.
Qed.

Lemma last_pwm_app (pin : Z) (l1 l2 : list event) (before : option Z) :
  last_pwm pin (l1 ++ l2) before = last_pwm pin l2 (last_pwm pin l1 before).
Proof.
  revert before. induction l1 as [|ev l1 IH]; intros before; [reflexivity|].
  destruct ev; cbn [app last_pwm]; apply IH.
Qed.

Lemma loop_last_pwm (c : channel) (e : env) (g : globals) :
  last_pwm (ledPin c) (output_of (loop e g)) (Some (brightness c g))
  = Some (brightness c (state_of (loop e g))).
Proof.
  pose proof (loop_brightness c e g) as Hb. rewrite loop_output.
  destruct (fires SampleStage e g), (fires RenderStage e g); destruct c;
    first [reflexivity | rewrite Hb; reflexivity].
Qed.

Lemma run_last_pwm (c : channel) (es : list env) (g : globals) :
  last_pwm (ledPin c) (snd (run es g)) (Some (brightness c g))
  = Some (brightness c (fst (run es g))).
Proof.
  revert g. induction es as [|e es IH]; intros g; [reflexivity|].
  rewrite run_output_cons, run_cons, last_pwm_app, loop_last_pwm. apply IH.
Qed.

(** X3: at every moment the duty cycle last written to a channel's LED pin
    is that channel's current brightness: the LED never lags behind the
    variable. *)
Theorem led_follows_brightness (c : channel) (e0 : env) (es : list env) :
  last_pwm (ledPin c) (snd (firmware e0 es)) None
  = Some (brightness c (fst (firmware e0 es))).
Proof.
  unfold firmware. cbn [fst snd]. rewrite last_pwm_app.
  replace (last_pwm (ledPin c) (output_of (setup e0 boot)) None)
    with (Some (brightness c (state_of (setup e0 boot)))).
  - apply run_last_pwm.
  - rewrite setup_eq. destruct c; reflexivity.
Qed.

Lemma pwm_writes_app (pin : Z) (l1 l2 : list event) :
  pwm_writes pin (l1 ++ l2) = (pwm_writes pin l1 + pwm_writes pin l2)%nat.
Proof. unfold pwm_writes. rewrite filter_app. apply length_app. Qed.

Lemma run_pwm_writes (c : channel) (es : list env) (g : globals) :
  pwm_writes (ledPin c) (snd (run es g)) = sample_ticks es g.
Proof.
  revert g. induction es as [|e es IH]; intros g; [reflexivity|].
  rewrite run_output_cons, pwm_writes_app, IH. cbn [sample_ticks].
  f_equal. rewrite loop_output.
  destruct (fires SampleStage e g), (fires RenderStage e g);
    destruct c; reflexivity.
Qed.

(** X4: each LED pin is written once by [setup] and once in every sample
    tick, and at no other time: after a run its number of PWM writes is one
    more than the number of sample ticks. *)
Theorem one_pwm_write_per_tick (c : channel) (e0 : env) (es : list env) :
  pwm_writes (ledPin c) (snd (firmware e0 es))
  = S (sample_ticks es (state_of (setup e0 boot))).
Proof.
  unfold firmware. cbn [snd]. rewrite pwm_writes_app, run_pwm_writes.
  rewrite setup_eq. destruct c; reflexivity.
Qed.

Lemma loop_redrawRequired (e : env) (g : globals) :
  redrawRequired (state_of (loop e g)) = redrawRequired g.
Proof.
  rewrite loop_state. cbn zeta.
  destruct (fires SampleStage e g), (fires RenderStage e g); reflexivity.
Qed.

(** X5: [redrawRequired] is set by [setup] and never touched again: [loop]
    leaves it as it finds it, so it is true in every state the firmware
    reaches. *)
Theorem redraw_flag_stays_set (e0 : env) (es : list env) :
  redrawRequired (fst (firmware e0 es)) = true.
Proof.
  unfold firmware. cbn [fst].
  assert (H : forall g, redrawRequired (fst (run es g)) = redrawRequired g).
  { induction es as [|e es IH]; intros g; [reflexivity|].
    rewrite run_cons, IH. apply loop_redrawRequired. }
  rewrite H, setup_eq. reflexivity.
Qed.

(** ** More on the timers *)

(** X6: the guards survive the roll-over of the 32-bit millisecond counter.
    If a stage's timer holds the counter value of true time [T0] and [loop]
    is called at true time [T], less than 2^32 ms later, the stage runs
    exactly when [T - T0] has reached its interval, wherever the counter
    wrapped in between. *)
Theorem guards_survive_rollover (s : stage) (e : env) (g : globals) (T0 T : Z) :
  timer s g = to_ulong T0 ->
  millis e = to_ulong T ->
  0 <= T - T0 < ulong_modulus ->
  fires s e g = (interval s <=? T - T0).
Proof.
  intros Ht He Hd.
  rewrite fires_eq, to_ulong_interval, Ht, He, to_ulong_sub.
  unfold to_ulong. rewrite Zminus_mod_idemp_l.
  rewrite Z.mod_small by exact Hd. reflexivity.
Qed.

Lemma guards_survive_rollover_witness :
  let g := set_previousReadMillis 4294967293 boot in
  timer SampleStage g = to_ulong 4294967293 /\
  millis (answer 4 HIGH HIGH) = to_ulong 4294967300 /\
  0 <= 4294967300 - 4294967293 < ulong_modulus /\
  fires SampleStage (answer 4 HIGH HIGH) g = true.
Proof.
  cbn zeta.
  assert (H3 : 0 <= 4294967300 - 4294967293 < ulong_modulus)
    by (unfold ulong_modulus; lia).
  split; [reflexivity|]. split; [reflexivity|]. split; [exact H3|].
  rewrite (guards_survive_rollover SampleStage (answer 4 HIGH HIGH)
             (set_previousReadMillis 4294967293 boot)
             4294967293 4294967300 eq_refl eq_refl H3).
  reflexivity.
Defined.

Lemma clock_advances_weaken (t t' : Z) (es : list env) :
  t' <= t -> clock_advances t es -> clock_advances t' es.
Proof.
  destruct es as [|e es]; [trivial|]. cbn [clock_advances].
  intros Ht [H1 H2]. split; [lia|exact H2].
Qed.

Lemma stage_runs_window (s : stage) (es : list env) :
  forall (g : globals) (T : Z),
    0 <= timer s g ->
    clock_advances (timer s g) es ->
    Forall (fun e => millis e <= T) es ->
    T < ulong_modulus ->
    timer s g <= T ->
    interval s * Z.of_nat (stage_runs s es g) <= T - timer s g.
Proof.
  induction es as [|e es IH]; intros g T H0 Hadv Hall HT Hle.
  - cbn [stage_runs Z.of_nat]. lia.
  - cbn [clock_advances] in Hadv. destruct Hadv as [Hte Hadv].
    inversion Hall as [|e' es' HeT Hall']; subst.
    assert (Hid : to_ulong (millis e) = millis e)
      by (unfold to_ulong; apply Z.mod_small; lia).
    pose proof (loop_timer s e g) as Htimer.
    pose proof (fires_eq s e g) as Hf.
    rewrite to_ulong_interval, Hid in Hf. rewrite Hid in Htimer.
    cbn [stage_runs]. rewrite Nat2Z.inj_add, Z.mul_add_distr_l.
    destruct (fires s e g).
    + symmetry in Hf. apply Z.leb_le in Hf.
      unfold to_ulong in Hf. rewrite Z.mod_small in Hf by lia.
      assert (IH' := IH (state_of (loop e g)) T).
      rewrite Htimer in IH'.
      specialize (IH' ltac:(lia) Hadv Hall' HT HeT).
      change (Z.of_nat 1) with 1. lia.
    + assert (IH' := IH (state_of (loop e g)) T).
      rewrite Htimer in IH'.
      specialize (IH' H0 (clock_advances_weaken _ _ _ Hte Hadv) Hall' HT Hle).
      change (Z.of_nat 0) with 0. lia.
Qed.

(** X7: while the clock readings do not go back and stay below the
    roll-over, a stage that last ran at [t0] runs at most [(T - t0) /
    interval] times in the calls of [loop] made up to reading [T]: at most
    one sample tick per 5 ms and one display refresh per 100 ms of clock time
    in total, however often [loop] is called. *)
Theorem stage_runs_bounded_by_clock (s : stage) (es : list env) (g : globals) (T : Z) :
  0 <= timer s g ->
  clock_advances (timer s g) es ->
  Forall (fun e => millis e <= T) es ->
  T < ulong_modulus ->
  timer s g <= T ->
  interval s * Z.of_nat (stage_runs s es g) <= T - timer s g.
Proof. apply stage_runs_window. Qed.

Lemma stage_runs_bounded_by_clock_witness :
  let es := [answer 5 HIGH HIGH; answer 100 HIGH HIGH; answer 101 HIGH HIGH;
             answer 199 HIGH HIGH; answer 200 HIGH HIGH] in
  0 <= timer RenderStage boot /\
  clock_advances (timer RenderStage boot) es /\
  Forall (fun e => millis e <= 200) es /\
  200 < ulong_modulus /\
  timer RenderStage boot <= 200 /\
  interval RenderStage * Z.of_nat (stage_runs RenderStage es boot) <= 200 - 0.
Proof.
  cbn zeta.
  assert (H1 : 0 <= timer RenderStage boot) by (cbn; lia).
  assert (H2 : clock_advances (timer RenderStage boot)
                 [answer 5 HIGH HIGH; answer 100 HIGH HIGH; answer 101 HIGH HIGH;
                  answer 199 HIGH HIGH; answer 200 HIGH HIGH])
    by (cbn; repeat split; lia).
  assert (H3 : Forall (fun e => millis e <= 200)
                 [answer 5 HIGH HIGH; answer 100 HIGH HIGH; answer 101 HIGH HIGH;
                  answer 199 HIGH HIGH; answer 200 HIGH HIGH])
    by (repeat constructor; cbn; lia).
  assert (H4 : 200 < ulong_modulus) by (unfold ulong_modulus; lia).
  assert (H5 : timer RenderStage boot <= 200) by (cbn; lia).
  split; [exact H1|]. split; [exact H2|]. split; [exact H3|].
  split; [exact H4|]. split; [exact H5|].
  exact (stage_runs_bounded_by_clock RenderStage _ boot 200 H1 H2 H3 H4 H5).
Defined.

(** ** The two channels do not interact *)

Lemma channel_independent_step (c : channel) (e1 e2 : env) (g1 g2 : globals) :
  same_for c e1 e2 ->
  brightness c g1 = brightness c g2 ->
  previousReadMillis g1 = previousReadMillis g2 ->
  brightness c (state_of (loop e1 g1)) = brightness c (state_of (loop e2 g2)) /\
  previousReadMillis (state_of (loop e1 g1))
  = previousReadMillis (state_of (loop e2 g2)).
Proof.
  intros [Hm Hr] Hb Hp.
  assert (Hf : fires SampleStage e1 g1 = fires SampleStage e2 g2).
  { rewrite !fires_eq. cbn [timer]. rewrite Hm, Hp. reflexivity. }
  rewrite !loop_brightness.
  rewrite (loop_timer SampleStage e1 g1 : previousReadMillis _ = _).
  rewrite (loop_timer SampleStage e2 g2 : previousReadMillis _ = _).
  cbn [timer]. rewrite Hf, Hm, Hr, Hb, Hp. split; reflexivity.
Qed.

(** X8: a channel's brightness depends only on the clock readings and on
    that channel's own switch.  Two runs whose calls see the same clock and
    the same level on the channel's switch pin, from globals that agree on the
    channel's brightness and on the sample timer, end with the same
    brightness for the channel, whatever the other switch does and whatever
    the other globals hold. *)
Theorem channels_do_not_interact (c : channel) (es1 es2 : list env)
        (g1 g2 : globals) :
  Forall2 (same_for c) es1 es2 ->
  brightness c g1 = brightness c g2 ->
  previousReadMillis g1 = previousReadMillis g2 ->
  brightness c (fst (run es1 g1)) = brightness c (fst (run es2 g2)).
Proof.
  intros Hes. revert g1 g2.
  induction Hes as [|e1 e2 es1 es2 He Hes IH]; intros g1 g2 Hb Hp.
  - exact Hb.
  - rewrite !run_cons.
    destruct (channel_independent_step c e1 e2 g1 g2 He Hb Hp) as [Hb' Hp'].
    apply IH; assumption.
Qed.

Lemma channels_do_not_interact_witness :
  let es1 := [answer 5 LOW HIGH; answer 10 LOW HIGH] in
  let es2 := [answer 5 LOW LOW; answer 10 LOW 7] in
  let g2 := set_brightnessB 200 (set_previousUpdateMillis 50 boot) in
  Forall2 (same_for ChannelA) es1 es2 /\
  brightness ChannelA boot = brightness ChannelA g2 /\
  previousReadMillis boot = previousReadMillis g2 /\
  brightness ChannelA (fst (run es1 boot)) = brightness ChannelA (fst (run es2 g2)).
Proof.
  cbn zeta.
  assert (H1 : Forall2 (same_for ChannelA)
                 [answer 5 LOW HIGH; answer 10 LOW HIGH]
                 [answer 5 LOW LOW; answer 10 LOW 7])
    by (repeat constructor).
  split; [exact H1|]. split; [reflexivity|]. split; [reflexivity|].
  exact (channels_do_not_interact ChannelA _ _ boot
           (set_brightnessB 200 (set_previousUpdateMillis 50 boot))
           H1 eq_refl eq_refl).
Defined.

(** ** The ramp from any brightness *)

Lemma held_low_general (c : channel) (es : list env) :
  forall g : globals,
    0 <= brightness c g <= 255 ->
    (forall e, In e es -> digitalRead e (switchPin c) = LOW) ->
    brightness c (fst (run es g))
    = Z.min 255 (brightness c g + 2 * Z.of_nat (sample_ticks es g)).
Proof.
  induction es as [|e es IH]; intros g Hb Hlow.
  - cbn [run fst sample_ticks Z.of_nat]. lia.
  - rewrite run_cons. cbn [sample_ticks].
    assert (He : digitalRead e (switchPin c) = LOW) by (apply Hlow; left; reflexivity).
    assert (Hes : forall e', In e' es -> digitalRead e' (switchPin c) = LOW)
      by (intros e' Hin; apply Hlow; right; exact Hin).
    pose proof (loop_brightness c e g) as Hstep.
    rewrite He, (fade_reference _ _ Hb) in Hstep.
    unfold ramp_reference, brightnessSteps in Hstep. cbn [LOW Z.eqb] in Hstep.
    destruct (fires SampleStage e g).
    + rewrite (IH (state_of (loop e g))) by (rewrite ?Hstep; auto; lia).
      rewrite Hstep. lia.
    + rewrite (IH (state_of (loop e g))) by (rewrite ?Hstep; auto).
      rewrite Hstep. lia.
Qed.

Lemma held_high_general (c : channel) (es : list env) :
  forall g : globals,
    0 <= brightness c g <= 255 ->
    (forall e, In e es -> digitalRead e (switchPin c) <> LOW) ->
    brightness c (fst (run es g))
    = Z.max 0 (brightness c g - 2 * Z.of_nat (sample_ticks es g)).
Proof.
  induction es as [|e es IH]; intros g Hb Hhigh.
  - cbn [run fst sample_ticks Z.of_nat]. lia.
  - rewrite run_cons. cbn [sample_ticks].
    assert (He : digitalRead e (switchPin c) <> LOW) by (apply Hhigh; left; reflexivity).
    assert (Hes : forall e', In e' es -> digitalRead e' (switchPin c) <> LOW)
      by (intros e' Hin; apply Hhigh; right; exact Hin).
    pose proof (loop_brightness c e g) as Hstep.
    rewrite (fade_reference _ _ Hb) in Hstep.
    unfold ramp_reference, brightnessSteps in Hstep.
    destruct (Z.eqb_spec (digitalRead e (switchPin c)) LOW) as [|_];
      [contradiction|].
    destruct (fires SampleStage e g).
    + rewrite (IH (state_of (loop e g))) by (rewrite ?Hstep; auto; lia).
      rewrite Hstep. lia.
    + rewrite (IH (state_of (loop e g))) by (rewrite ?Hstep; auto).
      rewrite Hstep. lia.
Qed.

(** X9: from any brightness b in [0,255], a channel whose switch reads LOW at
    every call has brightness min(255, b + 2n) after n sample ticks; 128
    ticks are enough to reach 255 from anywhere. *)
Theorem tilted_ramp_from_any_level (c : channel) (g : globals) (es : list env) :
  0 <= brightness c g <= 255 ->
  (forall e, In e es -> digitalRead e (switchPin c) = LOW) ->
  let n := Z.of_nat (sample_ticks es g) in
  let b' := brightness c (fst (run es g)) in
  b' = Z.min 255 (brightness c g + 2 * n) /\ (128 <= n -> b' = 255).
Proof.
  intros Hb Hlow. cbn zeta. rewrite (held_low_general c es g Hb Hlow).
  split; lia.
Qed.

Lemma tilted_ramp_from_any_level_witness :
  let g := set_brightnessA 101 boot in
  0 <= brightness ChannelA g <= 255 /\
  (forall e, In e (steady 10 LOW HIGH) -> digitalRead e (switchPin ChannelA) = LOW) /\
  brightness ChannelA (fst (run (steady 10 LOW HIGH) g)) = 121.
Proof.
  cbn zeta.
  assert (H1 : 0 <= brightness ChannelA (set_brightnessA 101 boot) <= 255)
    by (cbn; lia).
  assert (H2 : forall e, In e (steady 10 LOW HIGH) ->
                         digitalRead e (switchPin ChannelA) = LOW)
    by (intros e He; exact (proj1 (steady_levels _ _ _ _ He))).
  split; [exact H1|]. split; [exact H2|].
  rewrite (proj1 (tilted_ramp_from_any_level ChannelA _ (steady 10 LOW HIGH) H1 H2)).
  reflexivity.
Defined.

(** X10: from any brightness b in [0,255], a channel whose switch reads
    released (not LOW) at every call has brightness max(0, b - 2n) after n
    sample ticks; 128 ticks are enough to reach 0 from anywhere. *)
Theorem released_ramp_from_any_level (c : channel) (g : globals) (es : list env) :
  0 <= brightness c g <= 255 ->
  (forall e, In e es -> digitalRead e (switchPin c) <> LOW) ->
  let n := Z.of_nat (sample_ticks es g) in
  let b' := brightness c (fst (run es g)) in
  b' = Z.max 0 (brightness c g - 2 * n) /\ (128 <= n -> b' = 0).
Proof.
  intros Hb Hhigh. cbn zeta. rewrite (held_high_general c es g Hb Hhigh).
  split; lia.
Qed.

Lemma released_ramp_from_any_level_witness :
  let g := set_brightnessB 100 boot in
  0 <= brightness ChannelB g <= 255 /\
  (forall e, In e (steady 10 HIGH HIGH) -> digitalRead e (switchPin ChannelB) <> LOW) /\
  brightness ChannelB (fst (run (steady 10 HIGH HIGH) g)) = 80.
Proof.
  cbn zeta.
  assert (H1 : 0 <= brightness ChannelB (set_brightnessB 100 boot) <= 255)
    by (cbn; lia).
  assert (H2 : forall e, In e (steady 10 HIGH HIGH) ->
                         digitalRead e (switchPin ChannelB) <> LOW).
  { intros e He. cbn [switchPin].
    rewrite (proj2 (steady_levels _ _ _ _ He)). discriminate. }
  split; [exact H1|]. split; [exact H2|].
  rewrite (proj1 (released_ramp_from_any_level ChannelB _ (steady 10 HIGH HIGH) H1 H2)).
  reflexivity.
Defined.

(** X11: a switch that keeps the position it had at power-on keeps its LED
    at the seeded extreme: if at every call the switch of a channel reads LOW
    exactly when it read LOW in [setup], the brightness is 255 (LOW) or 0
    (not LOW) after any number of calls of [loop]. *)
Theorem steady_switch_steady_led (c : channel) (e0 : env) (es : list env) :
  (forall e, In e es ->
     (digitalRead e (switchPin c) =? LOW) = (digitalRead e0 (switchPin c) =? LOW)) ->
  brightness c (fst (firmware e0 es))
  = if digitalRead e0 (switchPin c) =? LOW then 255 else 0.
Proof.
  intros Hsame. unfold firmware. cbn [fst].
  assert (Hseed : brightness c (state_of (setup e0 boot))
                  = if digitalRead e0 (switchPin c) =? LOW then 255 else 0)
    by (rewrite setup_eq; destruct c; reflexivity).
  destruct (digitalRead e0 (switchPin c) =? LOW) eqn:E0.
  - rewrite held_low_general.
    + rewrite Hseed. lia.
    + rewrite Hseed. lia.
    + intros e He. apply Z.eqb_eq. apply Hsame, He.
  - rewrite held_high_general.
    + rewrite Hseed. lia.
    + rewrite Hseed. lia.
    + intros e He. apply Z.eqb_neq. apply Hsame, He.
Qed.

Lemma steady_switch_steady_led_witness :
  (forall e, In e (steady 40 LOW HIGH) ->
     (digitalRead e (switchPin ChannelA) =? LOW)
     = (digitalRead (answer 0 LOW HIGH) (switchPin ChannelA) =? LOW)) /\
  brightness ChannelA (fst (firmware (answer 0 LOW HIGH) (steady 40 LOW HIGH))) = 255.
Proof.
  assert (H : forall e, In e (steady 40 LOW HIGH) ->
     (digitalRead e (switchPin ChannelA) =? LOW)
     = (digitalRead (answer 0 LOW HIGH) (switchPin ChannelA) =? LOW)).
  { intros e He. cbn [switchPin].
    rewrite (proj1 (steady_levels _ _ _ _ He)). reflexivity. }
  split; [exact H|].
  exact (steady_switch_steady_led ChannelA (answer 0 LOW HIGH) (steady 40 LOW HIGH) H).
Defined.

(** X12: a sample tick up followed by a sample tick down brings a channel
    back to the brightness it had, except when the tick up met the clamp:
    from 254 or 255 the pair ends at 253.  Likewise down then up is the
    identity from 2 up to 255 and ends at 2 from 0 or 1. *)
Theorem tick_pairs_round_trip (c : channel) (e1 e2 : env) (g : globals) :
  fires SampleStage e1 g = true ->
  fires SampleStage e2 (state_of (loop e1 g)) = true ->
  0 <= brightness c g <= 255 ->
  let b := brightness c g in
  let b'' := brightness c (fst (run [e1; e2] g)) in
  (digitalRead e1 (switchPin c) = LOW -> digitalRead e2 (switchPin c) <> LOW ->
   b'' = if b <=? 253 then b else 253) /\
  (digitalRead e1 (switchPin c) <> LOW -> digitalRead e2 (switchPin c) = LOW ->
   b'' = if 2 <=? b then b else 2).
Proof.
  intros F1 F2 Hb. cbn zeta. cbn [run fst].
  pose proof (loop_brightness c e2 (state_of (loop e1 g))) as H2.
  pose proof (loop_brightness c e1 g) as H1.
  rewrite F2 in H2. rewrite F1 in H1.
  assert (Hb1 : 0 <= brightness c (state_of (loop e1 g)) <= 255)
    by (rewrite H1; apply fade_in_range, Hb).
  rewrite (fade_reference _ _ Hb1) in H2. rewrite (fade_reference _ _ Hb) in H1.
  rewrite H2, H1. unfold ramp_reference, brightnessSteps.
  split; intros Ha Hc.
  - rewrite Ha. cbn [LOW Z.eqb].
    destruct (Z.eqb_spec (digitalRead e2 (switchPin c)) LOW) as [|_];
      [contradiction|].
    destruct (Z.leb_spec (brightness c g) 253); lia.
  - rewrite Hc. cbn [LOW Z.eqb].
    destruct (Z.eqb_spec (digitalRead e1 (switchPin c)) LOW) as [|_];
      [contradiction|].
    destruct (Z.leb_spec 2 (brightness c g)); lia.
Qed.

Lemma tick_pairs_round_trip_witness :
  let g := set_brightnessA 254 boot in
  let e1 := answer 5 LOW HIGH in
  let e2 := answer 10 HIGH HIGH in
  fires SampleStage e1 g = true /\
  fires SampleStage e2 (state_of (loop e1 g)) = true /\
  0 <= brightness ChannelA g <= 255 /\
  brightness ChannelA (fst (run [e1; e2] g)) = 253.
Proof.
  cbn zeta.
  assert (H3 : 0 <= brightness ChannelA (set_brightnessA 254 boot) <= 255)
    by (cbn; lia).
  split; [reflexivity|]. split; [reflexivity|]. split; [exact H3|].
  rewrite (proj1 (tick_pairs_round_trip ChannelA (answer 5 LOW HIGH)
                    (answer 10 HIGH HIGH) (set_brightnessA 254 boot)
                    eq_refl eq_refl H3)
             eq_refl ltac:(discriminate)).
  reflexivity.
Defined.

(** X13: a sample tick leaves a channel's brightness where it is only at or
    beyond the extreme it is heading for: with the switch LOW exactly when
    the brightness is 255 or more, with the switch released exactly when it
    is 0 or less; in every other case the tick moves it. *)
Theorem tick_holds_only_at_extreme (c : channel) (e : env) (g : globals) :
  int_range (brightness c g) ->
  fires SampleStage e g = true ->
  brightness c (state_of (loop e g)) = brightness c g <->
  (digitalRead e (switchPin c) = LOW /\ 255 <= brightness c g) \/
  (digitalRead e (switchPin c) <> LOW /\ brightness c g <= 0).
Proof.
  intros Hr Hf. rewrite loop_brightness, Hf.
  unfold int_range, int_min, int_max in Hr.
  unfold fade, fade_traced, brightnessSteps.
  destruct (Z.eqb_spec (digitalRead e (switchPin c)) LOW) as [Hsw|Hsw].
  - destruct (Z.ltb_spec (brightness c g) 255).
    + rewrite to_int_id by (unfold int_range, int_min, int_max; lia).
      destruct (Z.gtb_spec (brightness c g + 2) 255); cbn [fst];
        split; [lia | intros [[_ ?]|[? _]]; [lia|contradiction]
               | lia | intros [[_ ?]|[? _]]; [lia|contradiction] ].
    + cbn [fst]. split; [intros _; left; split; [exact Hsw|lia] | reflexivity].
  - destruct (Z.gtb_spec (brightness c g) 0).
    + rewrite to_int_id by (unfold int_range, int_min, int_max; lia).
      destruct (Z.ltb_spec (brightness c g - 2) 0); cbn [fst];
        split; [lia | intros [[? _]|[_ ?]]; [contradiction|lia]
               | lia | intros [[? _]|[_ ?]]; [contradiction|lia] ].
    + cbn [fst]. split; [intros _; right; split; [exact Hsw|lia] | reflexivity].
Qed.

Lemma tick_holds_only_at_extreme_witness :
  int_range (brightness ChannelB boot) /\
  fires SampleStage (answer 5 LOW HIGH) boot = true /\
  brightness ChannelB (state_of (loop (answer 5 LOW HIGH) boot))
  = brightness ChannelB boot.
Proof.
  assert (H1 : int_range (brightness ChannelB boot))
    by (unfold int_range, int_min, int_max; cbn; lia).
  split; [exact H1|]. split; [reflexivity|].
  apply (proj2 (tick_holds_only_at_extreme ChannelB (answer 5 LOW HIGH) boot
                  H1 eq_refl)).
  right. split; [discriminate | cbn; lia].
Defined.

(** ** The schedule depends on the clock alone *)

(** X14: which calls of [loop] run a stage is decided by the clock readings
    and the stage's timer only: two runs with the same clock readings, from
    globals that agree on the stage's timer, run the stage equally often and
    leave the same timer value, whatever the switches read and whatever the
    brightness values are. *)
Theorem schedule_ignores_switches (s : stage) (es1 es2 : list env)
        (g1 g2 : globals) :
  Forall2 (fun e1 e2 => millis e1 = millis e2) es1 es2 ->
  timer s g1 = timer s g2 ->
  stage_runs s es1 g1 = stage_runs s es2 g2 /\
  timer s (fst (run es1 g1)) = timer s (fst (run es2 g2)).
Proof.
  intros Hes. revert g1 g2.
  induction Hes as [|e1 e2 es1 es2 He Hes IH]; intros g1 g2 Ht.
  - split; [reflexivity|exact Ht].
  - assert (Hf : fires s e1 g1 = fires s e2 g2)
      by (rewrite !fires_eq, He, Ht; reflexivity).
    assert (Ht' : timer s (state_of (loop e1 g1)) = timer s (state_of (loop e2 g2)))
      by (rewrite !loop_timer, Hf, He, Ht; reflexivity).
    destruct (IH _ _ Ht') as [IHr IHt].
    cbn [stage_runs]. rewrite !run_cons, Hf, IHr, IHt. split; reflexivity.
Qed.

Lemma schedule_ignores_switches_witness :
  let es1 := [answer 5 LOW HIGH; answer 100 LOW HIGH; answer 150 LOW LOW] in
  let es2 := [answer 5 HIGH LOW; answer 100 HIGH HIGH; answer 150 9 HIGH] in
  let g2 := set_brightnessA 77 boot in
  Forall2 (fun e1 e2 => millis e1 = millis e2) es1 es2 /\
  timer RenderStage boot = timer RenderStage g2 /\
  stage_runs RenderStage es1 boot = stage_runs RenderStage es2 g2.
Proof.
  cbn zeta.
  assert (H1 : Forall2 (fun e1 e2 => millis e1 = millis e2)
                 [answer 5 LOW HIGH; answer 100 LOW HIGH; answer 150 LOW LOW]
                 [answer 5 HIGH LOW; answer 100 HIGH HIGH; answer 150 9 HIGH])
    by (repeat constructor).
  split; [exact H1|]. split; [reflexivity|].
  exact (proj1 (schedule_ignores_switches RenderStage _ _ boot
                  (set_brightnessA 77 boot) H1 eq_refl)).
Defined.
